(** * The metaspace commit mask

    A shallow embedding of [metaspace::CommitMask]
    (src/hotspot/share/memory/metaspace/commitMask.cpp): the constructor,
    the debug-only [verify] and [print_on].

    The class derives from [CHeapBitMap]; one bit stands for one commit
    granule of a reserved address range.  Sizes, indices and addresses
    are 64-bit unsigned machine integers ([size_t], [idx_t], pointers on
    an LP64 platform) and are carried as [N] with the wrap-around written
    out where the source computes with them. *)

From Stdlib Require Import NArith String Ascii Bool Lia HexString.
From stdpp Require Import base list.

Local Open Scope N_scope.

(** ** Outcomes

    HotSpot has no recoverable errors on these paths: a failed [assert]
    or a hardware fault ends the process. *)

Inductive Fatal : Type :=
| AssertFailed (msg : string)   (* vmassert: report_vm_error *)
| DivideByZero                  (* integer division by zero *)
| SegFault (p : N).             (* load from an inaccessible address *)

Inductive Result (A : Type) : Type :=
| Ok (a : A)
| Abort (f : Fatal).
Arguments Ok {A} a.
Arguments Abort {A} f.

Global Instance Result_ret : MRet Result := fun _ a => Ok a.
Global Instance Result_bind : MBind Result := fun _ _ k r =>
  match r with
  | Ok a => k a
  | Abort f => Abort f
  end.

Definition is_fatal {A} (r : Result A) : Prop := exists f, r = Abort f.

(** ** Build flavour

    [assert] is [vmassert] when ASSERT is defined (debug builds) and
    expands to nothing in a product build. *)

Inductive Build : Type := Debug | Product.

Definition assert (b : Build) (cond : bool) (msg : string) : Result unit :=
  match b with
  | Debug => if cond then Ok tt else Abort (AssertFailed msg)
  | Product => Ok tt
  end.

(** ** Machine arithmetic (LP64) *)

Definition BytesPerWord : N := 8.

Definition wrap (n : N) : N := n mod 2 ^ 64.

(** Pointer arithmetic on [MetaWord*]: [p + n] advances by [n] words. *)
Definition ptr_add (p n : N) : N := wrap (p + n * BytesPerWord).

(** Modelled from the spec: [is_aligned] of utilities/align.hpp, which is
    not among the sources; the spec reads it as "an exact multiple of"
    (for sizes) and "aligned to" (for addresses). *)
Definition is_aligned (size alignment : N) : bool :=
  size mod alignment =? 0.

(** ** Settings *)

Record Settings : Type := { commit_granule_words : N }.

(** ** The bitmap base class

    Modelled from the spec: [CHeapBitMap] (utilities/bitMap.hpp) is not
    among the sources.  The spec describes a private bit vector of a fixed
    length whose bits all start out false, with [size()], [at(i)] and
    half-open range set/clear.  An index past the end does not name a bit:
    [bit_at] answers false there and the range operations leave the
    vector alone. *)

Definition CHeapBitMap_new (size_in_bits : N) : list bool :=
  replicate (N.to_nat size_in_bits) false.

Fixpoint put_range (v : bool) (beg len : nat) (bits : list bool)
  : list bool :=
  match len with
  | O => bits
  | S len' => put_range v (S beg) len' (<[beg := v]> bits)
  end.

(** ** The commit mask *)

Record CommitMask : Type := {
  _bits : list bool;        (* the CHeapBitMap sub-object *)
  _base : N;                (* const MetaWord* *)
  _word_size : N;
  _words_per_bit : N
}.

Definition size (m : CommitMask) : N := N.of_nat (length (_bits m)).

Definition bit_at (m : CommitMask) (i : N) : bool :=
  default false (_bits m !! N.to_nat i).

(** Modelled from the spec: [mask_size] of commitMask.hpp, "a bit vector of
    length region_size_in_words / granule_size_in_words".  A zero divisor
    does not produce a length. *)
Definition mask_size (word_size words_per_bit : N) : Result N :=
  if words_per_bit =? 0 then Abort DivideByZero
  else Ok (word_size / words_per_bit).

(** [CommitMask::CommitMask(const MetaWord* start, size_t word_size)].
    The member initialisers run first, then the body's [assert]. *)
Definition CommitMask_new (b : Build) (st : Settings) (start word_size : N)
  : Result CommitMask :=
  n ← mask_size word_size (commit_granule_words st);
  let this := {| _bits := CHeapBitMap_new n;
                 _base := start;
                 _word_size := word_size;
                 _words_per_bit := commit_granule_words st |} in
  _ ← assert b ((0 <? _word_size this) && (0 <? _words_per_bit this) &&
                is_aligned (_word_size this) (_words_per_bit this)) "Sanity";
  Ok this.

(** Modelled from the spec: the mutation and query contracts of
    commitMask.hpp, "mark_committed(range)", "mark_uncommitted(range)" and
    "is_committed(index)", over half-open index ranges [[a,b)]. *)
Definition with_bits (m : CommitMask) (bits : list bool) : CommitMask :=
  {| _bits := bits;
     _base := _base m;
     _word_size := _word_size m;
     _words_per_bit := _words_per_bit m |}.

Definition mark_committed (m : CommitMask) (a b : N) : CommitMask :=
  with_bits m (put_range true (N.to_nat a) (N.to_nat (b - a)) (_bits m)).

Definition mark_uncommitted (m : CommitMask) (a b : N) : CommitMask :=
  with_bits m (put_range false (N.to_nat a) (N.to_nat (b - a)) (_bits m)).

Definition is_committed (m : CommitMask) (i : N) : bool := bit_at m i.

(** Sequences of mutations, as a region manager issues them. *)
Inductive MaskOp : Type :=
| MarkCommitted (a b : N)
| MarkUncommitted (a b : N).

Definition run_op (m : CommitMask) (o : MaskOp) : CommitMask :=
  match o with
  | MarkCommitted a b => mark_committed m a b
  | MarkUncommitted a b => mark_uncommitted m a b
  end.

Definition run_ops (m : CommitMask) (os : list MaskOp) : CommitMask :=
  foldl run_op m os.

(** The range of [o] has no index in common with [[a,b)]. *)
Definition outside (a b : N) (o : MaskOp) : Prop :=
  match o with
  | MarkCommitted c d | MarkUncommitted c d => d <= a \/ b <= c \/ d <= c
  end.

(** ** The debug-only verifier

    [verify] reads the mask, loads from the node's memory, updates the
    global [x] and may call into the [os] layer.  The program state it
    runs in holds the mask object itself, so that what [verify] leaves
    alone is a statement about the state it returns. *)

(** What the platform provides to [verify]. *)
Record Os : Type := {
  (* CanUseSafeFetch32(): the SafeFetch stubs have been generated *)
  CanUseSafeFetch32 : bool;
  (* os::is_readable_pointer(p): the non-faulting probe *)
  is_readable_pointer : N -> bool;
  (* a one-byte load from an address; None when the access faults *)
  load_u1 : N -> option N
}.

(** The operations of one run, in program order. *)
Inductive Event : Type :=
| EvAt (i : N)            (* at(i) on the bitmap *)
| EvLoad (p : N) (v : N)  (* one byte loaded through p, giving v *)
| EvProbe (p : N).        (* os::is_readable_pointer(p) *)

Record World : Type := {
  this : CommitMask;     (* the object verify is called on *)
  x : N;                 (* volatile u1 x *)
  trace : list Event
}.

Definition M (A : Type) : Type := World -> Result (A * World).

Global Instance M_ret : MRet M := fun _ a w => Ok (a, w).
Global Instance M_bind : MBind M := fun _ _ k c w =>
  match c w with
  | Ok (a, w') => k a w'
  | Abort f => Abort f
  end.

Definition get_this : M CommitMask := fun w => Ok (this w, w).

Definition record (e : Event) : M unit := fun w =>
  Ok (tt, {| this := this w; x := x w; trace := trace w ++ [e] |}).

Definition vmassert (cond : bool) (msg : string) : M unit := fun w =>
  if cond then Ok (tt, w) else Abort (AssertFailed msg).

Definition assert_is_aligned (value alignment : N) : M unit :=
  vmassert (is_aligned value alignment) "is not aligned".

(** [at(i)] on [this]. *)
Definition at_ (i : N) : M bool :=
  m ← get_this;
  _ ← record (EvAt i);
  mret (bit_at m i).

(** The one-byte load through [p] cast to a [u1] pointer. *)
Definition deref_u1 (os : Os) (p : N) : M N := fun w =>
  match load_u1 os p with
  | Some v => record (EvLoad p v) w ≫= fun '(_, w') => Ok (v, w')
  | None => Abort (SegFault p)
  end.

(** [a ^ v] stored back into a [u1]. *)
Definition xor_u1 (a v : N) : N := N.lxor a v mod 2 ^ 8.

(** [x ^= v] on the global [volatile u1 x]. *)
Definition xor_x (v : N) : M unit := fun w =>
  Ok (tt, {| this := this w; x := xor_u1 (x w) v; trace := trace w |}).

Definition probe (os : Os) (p : N) : M bool :=
  _ ← record (EvProbe p);
  mret (is_readable_pointer os p).

(** [static const bool TEST_UNCOMMITTED_REGION = false;] *)
Definition TEST_UNCOMMITTED_REGION : bool := false.

(** The condition of [assert(CanUseSafeFetch32, ..)] in [verify] is the
    name of the function, not a call of it (compare the call
    [CanUseSafeFetch32()] inside the loop).  A function designator used as
    a condition converts to a pointer to the function and tests it against
    null, so the condition holds whatever the function would return. *)
Definition CanUseSafeFetch32_designator : bool := true.

(** [for (idx_t i = from; i < from + n; i ++) body(i)]. *)
Fixpoint for_idx (n : nat) (from : N) (body : N -> M unit) : M unit :=
  match n with
  | O => mret tt
  | S n' => _ ← body from; for_idx n' (N.succ from) body
  end.

(** [const MetaWord* const p = _base + (i * _words_per_bit);] *)
Definition granule_ptr (m : CommitMask) (i : N) : N :=
  ptr_add (_base m) (wrap (i * _words_per_bit m)).

(** One turn of the loop in [verify]. *)
Definition verify_granule (os : Os) (slow : bool) (m : CommitMask) (i : N)
  : M unit :=
  let p := granule_ptr m i in
  b ← at_ i;
  match b with
  | true =>
      (* Should be accessible. Just touch it. *)
      v ← deref_u1 os p;
      xor_x v
  | false =>
      (* Should not be accessible. *)
      if slow then
        if CanUseSafeFetch32 os && TEST_UNCOMMITTED_REGION then
          r ← probe os p;
          vmassert (eqb r false) "should not be accessible."
        else mret tt
      else mret tt
  end.

(** [void CommitMask::verify(bool slow, bool do_touch_test) const]. *)
Definition verify (os : Os) (slow do_touch_test : bool) : M unit :=
  m ← get_this;
  _ ← assert_is_aligned (_base m) (wrap (_words_per_bit m * BytesPerWord));
  _ ← assert_is_aligned (_word_size m) (_words_per_bit m);
  _ ← (if slow return M unit
       then vmassert CanUseSafeFetch32_designator
                     "We need SafeFetch for this test."
       else mret tt);
  if do_touch_test return M unit then
    for_idx (N.to_nat (size m)) 0 (verify_granule os slow m)
  else mret tt.

(** Projections of a trace: the bits looked at, the bytes loaded and the
    addresses probed, each in program order. *)
Definition visited (tr : list Event) : list N :=
  omap (fun e => match e with EvAt i => Some i | _ => None end) tr.

Definition loaded (tr : list Event) : list N :=
  omap (fun e => match e with EvLoad _ v => Some v | _ => None end) tr.

Definition probed (tr : list Event) : list N :=
  omap (fun e => match e with EvProbe p => Some p | _ => None end) tr.

(** The indices [from, from+1, ..] a loop of [n] turns runs through. *)
Fixpoint idx_seq (from : N) (n : nat) : list N :=
  match n with
  | O => []
  | S n' => from :: idx_seq (N.succ from) n'
  end.

(** The same platform with another answer from the probe. *)
Definition with_probe (os : Os) (f : N -> bool) : Os :=
  {| CanUseSafeFetch32 := CanUseSafeFetch32 os;
     is_readable_pointer := f;
     load_u1 := load_u1 os |}.

(** The mask describes a region that lies inside the address space: one
    bit per whole granule of the region, and the region ends at or below
    the top of memory. *)
Definition in_address_space (m : CommitMask) : Prop :=
  0 < _words_per_bit m /\
  size m * _words_per_bit m <= _word_size m /\
  _base m + _word_size m * BytesPerWord <= 2 ^ 64.

(** ** Printing

    An [outputStream] is the text written to it so far. *)

Definition outputStream : Type := string.

Definition st_print (s : string) (st : outputStream) : outputStream :=
  (st ++ s)%string.

Definition newline : string := String (ascii_of_N 10) EmptyString.

(** [outputStream::cr()] ends the line. *)
Definition st_cr (st : outputStream) : outputStream := st_print newline st.

Definition granule_char (b : bool) : ascii := if b then "X"%char else "-"%char.

(** The loop of [print_on]: [st->print("%c", at(i) ? 'X' : '-')]. *)
Fixpoint print_bits (m : CommitMask) (n : nat) (from : N)
    (st : outputStream) : outputStream :=
  match n with
  | O => st
  | S n' =>
      print_bits m n' (N.succ from)
        (st_print (String (granule_char (bit_at m from)) EmptyString) st)
  end.

(** The characters for the bits [from, from+1, ..], [n] of them. *)
Fixpoint bits_text (m : CommitMask) (n : nat) (from : N) : string :=
  match n with
  | O => EmptyString
  | S n' => String (granule_char (bit_at m from))
                   (bits_text m n' (N.succ from))
  end.

Section Printing.

(** How the stream prints a pointer under [PTR_FORMAT]; the macro is
    defined in utilities/globalDefinitions.hpp, outside these sources. *)
Variable PTR_FORMAT : N -> string.

(** [void CommitMask::print_on(outputStream* st) const]. *)
Definition print_on (m : CommitMask) (st : outputStream) : outputStream :=
  let st := st_print ("commit mask, base " ++ PTR_FORMAT (_base m) ++ ":")
                     st in
  let st := print_bits m (N.to_nat (size m)) 0 st in
  st_cr st.

End Printing.

(** Modelled from the spec: [PTR_FORMAT], "<hex-address>", which the spec
    writes as [0x1000] for the address 4096. *)
Definition PTR_FORMAT_hex (p : N) : string := HexString.of_N p.

(** ** Sample inputs

    The node of the end-to-end example: base [0x1000], 64 words, granules
    of 8 words. *)

Definition granule8 : Settings := {| commit_granule_words := 8 |}.

Definition mask8 : CommitMask :=
  {| _bits := replicate 8 false;
     _base := 0x1000;
     _word_size := 64;
     _words_per_bit := 8 |}.

(** Every address is mapped; the byte at [p] is [p mod 255 + 1]. *)
Definition os_mapped (safefetch : bool) : Os :=
  {| CanUseSafeFetch32 := safefetch;
     is_readable_pointer := fun _ => true;
     load_u1 := fun p => Some ((p mod 255) + 1) |}.

Definition world_of (m : CommitMask) : World :=
  {| this := m; x := 0; trace := [] |}.

(** The example mask with granules 2, 3 and 4 committed, and the state a
    slow touch test over it ends in on [os_mapped]. *)
Definition mask8_2_5 : CommitMask := mark_committed mask8 2 5.

Definition world_touched : World :=
  {| this := mask8_2_5;
     x := 82;
     trace := [EvAt 0; EvAt 1; EvAt 2; EvLoad 4224 145;
               EvAt 3; EvLoad 4288 209; EvAt 4; EvLoad 4352 18;
               EvAt 5; EvAt 6; EvAt 7] |}.

(** ** What a touch test leaves in the trace

    The events of the loop in [verify] over the indices [idxs]: [at(i)]
    for each index and, for a set bit whose granule can be loaded from,
    the load. *)
Definition touch_events (os : Os) (m : CommitMask) (idxs : list N)
  : list Event :=
  flat_map (fun i =>
    EvAt i ::
    (if bit_at m i then
       match load_u1 os (granule_ptr m i) with
       | Some v => [EvLoad (granule_ptr m i) v]
       | None => []
       end
     else [])) idxs.

(** The addresses loaded from, in program order. *)
Definition load_addrs (tr : list Event) : list N :=
  omap (fun e => match e with EvLoad p _ => Some p | _ => None end) tr.

(** More sample platforms: nothing is mapped; everything but the byte at
    [q] is mapped. *)
Definition os_unmapped : Os :=
  {| CanUseSafeFetch32 := false;
     is_readable_pointer := fun _ => false;
     load_u1 := fun _ => None |}.

Definition os_hole (q : N) : Os :=
  {| CanUseSafeFetch32 := true;
     is_readable_pointer := fun p => negb (p =? q);
     load_u1 := fun p => if p =? q then None else Some ((p mod 255) + 1) |}.

Definition granule7 : Settings := {| commit_granule_words := 7 |}.

(** * Properties *)

(** ** The bit vector *)

Lemma put_range_length v len : forall beg bits,
  length (put_range v beg len bits) = length bits.
Proof.
  induction len as [|len IH]; intros beg bits; simpl; [done|].
  by rewrite IH, length_insert.
Qed.

Lemma put_range_lookup v len : forall beg bits j,
  put_range v beg len bits !! j =
  if decide (beg <= j < beg + len)%nat
  then (fun _ => v) <$> bits !! j
  else bits !! j.
Proof.
  induction len as [|len IH]; intros beg bits j; simpl.
  - case_decide; [lia|done].
  - rewrite IH. destruct (decide (j = beg)) as [->|Hne].
    + destruct (decide (beg < length bits)%nat) as [Hlt|Hge].
      * rewrite list_lookup_insert_eq by done.
        destruct (lookup_lt_is_Some_2 bits beg Hlt) as [y Hy]. rewrite Hy.
        repeat case_decide; try lia; done.
      * rewrite list_insert_ge by lia.
        rewrite (lookup_ge_None_2 bits beg) by lia.
        repeat case_decide; done.
    + rewrite list_lookup_insert_ne by done.
      repeat case_decide; try lia; done.
Qed.

Lemma size_with_bits m bits :
  size (with_bits m bits) = N.of_nat (length bits).
Proof. reflexivity. Qed.

Lemma size_mark_committed m a b : size (mark_committed m a b) = size m.
Proof. unfold mark_committed, size; simpl. by rewrite put_range_length. Qed.

Lemma size_mark_uncommitted m a b : size (mark_uncommitted m a b) = size m.
Proof. unfold mark_uncommitted, size; simpl. by rewrite put_range_length. Qed.

Lemma bit_at_ge m i : size m <= i -> bit_at m i = false.
Proof.
  unfold size, bit_at. intros H.
  rewrite lookup_ge_None_2 by lia. done.
Qed.

Lemma bit_at_mark_committed m a b i :
  bit_at (mark_committed m a b) i =
  if (a <=? i) && (i <? b) && (i <? size m) then true else bit_at m i.
Proof.
  unfold mark_committed, bit_at, size; simpl. rewrite put_range_lookup.
  destruct (N.leb_spec a i), (N.ltb_spec i b),
    (N.ltb_spec i (N.of_nat (length (_bits m)))); simpl;
    case_decide; try lia; try done.
  - destruct (lookup_lt_is_Some_2 (_bits m) (N.to_nat i)) as [y ->]; [lia|done].
  - rewrite lookup_ge_None_2 by lia. done.
Qed.

Lemma bit_at_mark_uncommitted m a b i :
  bit_at (mark_uncommitted m a b) i =
  if (a <=? i) && (i <? b) then false else bit_at m i.
Proof.
  unfold mark_uncommitted, bit_at; simpl. rewrite put_range_lookup.
  destruct (N.leb_spec a i), (N.ltb_spec i b); simpl;
    case_decide; try lia; try done.
  by destruct (_bits m !! N.to_nat i).
Qed.

Lemma bit_at_run_op_outside a b o m i :
  outside a b o -> a <= i < b -> bit_at (run_op m o) i = bit_at m i.
Proof.
  intros Ho Hi. destruct o as [c d|c d]; simpl in *.
  - rewrite bit_at_mark_committed.
    destruct (N.leb_spec c i), (N.ltb_spec i d); simpl; try done; lia.
  - rewrite bit_at_mark_uncommitted.
    destruct (N.leb_spec c i), (N.ltb_spec i d); simpl; try done; lia.
Qed.

Lemma bit_at_run_ops_outside a b os : forall m i,
  Forall (outside a b) os -> a <= i < b ->
  bit_at (run_ops m os) i = bit_at m i.
Proof.
  unfold run_ops. induction os as [|o os IH]; intros m i Hos Hi; simpl.
  - done.
  - inversion Hos; subst. rewrite IH by done.
    by apply bit_at_run_op_outside with a b.
Qed.

(** ** Construction *)

Lemma size_CHeapBitMap_new n : N.of_nat (length (CHeapBitMap_new n)) = n.
Proof. unfold CHeapBitMap_new. rewrite length_replicate. lia. Qed.

Lemma CommitMask_new_sane b st start R :
  0 < R -> 0 < commit_granule_words st -> R mod commit_granule_words st = 0 ->
  CommitMask_new b st start R =
    Ok {| _bits := CHeapBitMap_new (R / commit_granule_words st);
          _base := start;
          _word_size := R;
          _words_per_bit := commit_granule_words st |}.
Proof.
  intros HR HG Hmod. unfold CommitMask_new, mask_size, is_aligned.
  destruct (N.eqb_spec (commit_granule_words st) 0) as [E|_]; [lia|].
  simpl. rewrite Hmod.
  destruct (N.ltb_spec 0 R); [|lia].
  destruct (N.ltb_spec 0 (commit_granule_words st)); [|lia].
  by destruct b.
Qed.

(** C1. For every region size [R] and granule size [G] (both in words)
    with [R > 0], [G > 0] and [R mod G = 0], constructing a CommitMask, in
    a debug or a product build, returns a mask whose bit vector has
    length exactly [R / G] and in which every bit is false. *)
Theorem CommitMask_new_all_uncommitted b st start R :
  0 < R -> 0 < commit_granule_words st -> R mod commit_granule_words st = 0 ->
  exists m, CommitMask_new b st start R = Ok m /\
    size m = R / commit_granule_words st /\
    Forall (fun bit => bit = false) (_bits m) /\
    (forall i, is_committed m i = false).
Proof.
  intros HR HG Hmod. eexists. split; [by apply CommitMask_new_sane|].
  split; [apply size_CHeapBitMap_new|]. split.
  - simpl. unfold CHeapBitMap_new. apply Forall_forall.
    intros bit Hin. by apply elem_of_replicate in Hin as [-> _].
  - intros i. unfold is_committed, bit_at; simpl. unfold CHeapBitMap_new.
    destruct (replicate _ false !! N.to_nat i) as [y|] eqn:E; [|done].
    by apply lookup_replicate in E as [-> _].
Qed.

Lemma CommitMask_new_all_uncommitted_witness :
  0 < 64 /\ 0 < commit_granule_words granule8 /\
  64 mod commit_granule_words granule8 = 0 /\
  exists m, CommitMask_new Debug granule8 0x1000 64 = Ok m /\
    size m = 64 / commit_granule_words granule8 /\
    Forall (fun bit => bit = false) (_bits m) /\
    (forall i, is_committed m i = false).
Proof.
  split; [reflexivity|]. split; [reflexivity|]. split; [reflexivity|].
  apply (CommitMask_new_all_uncommitted Debug granule8 0x1000 64);
    reflexivity.
Defined.

(** C2 as stated does not hold: in a debug build a mask is constructed
    over a base that is not aligned to the granule size in bytes. *)
Lemma CommitMask_new_accepts_misaligned_base :
  is_aligned 0x1001 (commit_granule_words granule8 * BytesPerWord) = false /\
  ~ is_fatal (CommitMask_new Debug granule8 0x1001 64).
Proof.
  split; [reflexivity|]. intros [f Hf]. vm_compute in Hf. discriminate.
Qed.

(** C2, amended. With the consistency checks compiled in, construction
    ends the process exactly when the region size is zero, the granule
    size is zero, or the region size is not a multiple of the granule
    size; the base address plays no part.  In particular [R = 100],
    [G = 7] fails for every base. *)
Theorem CommitMask_new_fatal_iff :
  (forall st start R,
     is_fatal (CommitMask_new Debug st start R) <->
     R = 0 \/ commit_granule_words st = 0 \/
     R mod commit_granule_words st <> 0) /\
  (forall start,
     is_fatal (CommitMask_new Debug {| commit_granule_words := 7 |}
                 start 100)).
Proof.
  split.
  - intros st start R. split.
    + intros [f Hf].
      destruct (N.eq_dec R 0) as [|HR]; [by left|].
      destruct (N.eq_dec (commit_granule_words st) 0) as [|HG];
        [by right; left|].
      destruct (N.eq_dec (R mod commit_granule_words st) 0) as [Hm|];
        [|by right; right].
      rewrite CommitMask_new_sane in Hf by lia. discriminate.
    + intros H. unfold CommitMask_new, mask_size, is_aligned.
      destruct (N.eqb_spec (commit_granule_words st) 0) as [E|HG];
        [by eexists|].
      simpl. destruct H as [->|[?|Hm]]; [by eexists|done|].
      destruct (N.eqb_spec (R mod commit_granule_words st) 0); [done|].
      rewrite andb_false_r. by eexists.
  - intros start. by eexists.
Qed.

(** ** Commit followed by uncommit *)

(** C9. For every mask state and every half-open range [[a,b)], marking
    the range committed and then uncommitted leaves every bit of the
    range false, whatever operations on indices outside the range run
    before, in between and afterwards. *)
Theorem commit_then_uncommit_range_false m a b between after i :
  Forall (outside a b) between -> Forall (outside a b) after ->
  a <= i < b ->
  is_committed
    (run_ops (mark_uncommitted (run_ops (mark_committed m a b) between) a b)
             after) i = false.
Proof.
  intros Hbetween Hafter Hi. unfold is_committed.
  rewrite (bit_at_run_ops_outside a b) by done.
  rewrite bit_at_mark_uncommitted.
  destruct (N.leb_spec a i), (N.ltb_spec i b); simpl; try done; lia.
Qed.

Lemma commit_then_uncommit_range_false_witness :
  Forall (outside 2 5) [MarkCommitted 5 8; MarkUncommitted 0 2] /\
  Forall (outside 2 5) [MarkCommitted 0 1] /\
  2 <= 3 < 5 /\
  is_committed
    (run_ops (mark_uncommitted
                (run_ops (mark_committed mask8 2 5)
                         [MarkCommitted 5 8; MarkUncommitted 0 2]) 2 5)
             [MarkCommitted 0 1]) 3 = false.
Proof.
  assert (H1 : Forall (outside 2 5) [MarkCommitted 5 8; MarkUncommitted 0 2])
    by (repeat constructor; simpl; lia).
  assert (H2 : Forall (outside 2 5) [MarkCommitted 0 1])
    by (repeat constructor; simpl; lia).
  assert (H3 : 2 <= 3 < 5) by lia.
  split; [exact H1|]. split; [exact H2|]. split; [exact H3|].
  exact (commit_then_uncommit_range_false mask8 2 5 _ _ 3 H1 H2 H3).
Defined.

(** ** The verifier, step by step *)

Lemma In_idx_seq n : forall from j,
  In j (idx_seq from n) <-> from <= j < from + N.of_nat n.
Proof.
  induction n as [|n IH]; intros from j; simpl.
  - lia.
  - rewrite IH. lia.
Qed.

Lemma NoDup_idx_seq n : forall from, List.NoDup (idx_seq from n).
Proof.
  induction n as [|n IH]; intros from; simpl; constructor.
  - rewrite In_idx_seq. lia.
  - apply IH.
Qed.

Lemma granule_ptr_no_wrap m i :
  in_address_space m -> i < size m ->
  granule_ptr m i = _base m + i * (_words_per_bit m * BytesPerWord).
Proof.
  intros (HG & Hcover & Htop) Hi. unfold granule_ptr, ptr_add, wrap.
  unfold BytesPerWord in *.
  assert (i * _words_per_bit m < size m * _words_per_bit m) by nia.
  rewrite (N.mod_small (i * _words_per_bit m)) by lia.
  rewrite N.mod_small by lia. lia.
Qed.

(** One turn of the loop, spelled out.  With [TEST_UNCOMMITTED_REGION]
    false the branch for a clear bit does nothing after [at(i)]. *)
Lemma verify_granule_eq os slow m i w :
  verify_granule os slow m i w =
  if bit_at (this w) i then
    match load_u1 os (granule_ptr m i) with
    | Some v =>
        Ok (tt, {| this := this w; x := xor_u1 (x w) v;
                   trace := trace w ++
                            [EvAt i; EvLoad (granule_ptr m i) v] |})
    | None => Abort (SegFault (granule_ptr m i))
    end
  else Ok (tt, {| this := this w; x := x w; trace := trace w ++ [EvAt i] |}).
Proof.
  unfold verify_granule, at_, deref_u1, xor_x, probe, record, get_this,
    vmassert, TEST_UNCOMMITTED_REGION.
  unfold mbind, M_bind, Result_bind, mret, M_ret; simpl.
  destruct (bit_at (this w) i).
  - destruct (load_u1 os (granule_ptr m i)); simpl; [|done].
    by rewrite <- app_assoc.
  - destruct slow; [|done].
    by rewrite andb_false_r.
Qed.

Lemma for_idx_ext (f g : N -> M unit) n : forall from w,
  (forall i w0, f i w0 = g i w0) ->
  for_idx n from f w = for_idx n from g w.
Proof.
  induction n as [|n IH]; intros from w Hfg; simpl; [done|].
  unfold mbind, M_bind. rewrite Hfg.
  destruct (g from w) as [[[] w1]|]; [|done]. by apply IH.
Qed.

(** The whole of [verify], spelled out: two alignment assertions, an
    assertion that cannot fail, and the loop under [do_touch_test]. *)
Lemma verify_eq os slow touch w :
  verify os slow touch w =
  if is_aligned (_base (this w))
       (wrap (_words_per_bit (this w) * BytesPerWord)) then
    if is_aligned (_word_size (this w)) (_words_per_bit (this w)) then
      if touch
      then for_idx (N.to_nat (size (this w))) 0
             (verify_granule os slow (this w)) w
      else Ok (tt, w)
    else Abort (AssertFailed "is not aligned")
  else Abort (AssertFailed "is not aligned").
Proof.
  unfold verify, assert_is_aligned, vmassert, get_this,
    CanUseSafeFetch32_designator.
  unfold mbind, M_bind, mret, M_ret; simpl.
  destruct (is_aligned (_base (this w)) _); [|done].
  destruct (is_aligned (_word_size (this w)) _); [|done].
  by destruct slow, touch.
Qed.

(** What a completed loop has done. *)
Lemma for_idx_verify_granule os slow m n : forall from w w',
  for_idx n from (verify_granule os slow m) w = Ok (tt, w') ->
  this w' = this w /\
  exists tr,
    trace w' = trace w ++ tr /\
    visited tr = idx_seq from n /\
    probed tr = [] /\
    x w' = foldl xor_u1 (x w) (loaded tr) /\
    (forall j, In j (idx_seq from n) -> bit_at (this w) j = true ->
       exists v, load_u1 os (granule_ptr m j) = Some v /\
                 In (EvLoad (granule_ptr m j) v) tr).
Proof.
  induction n as [|n IH]; intros from w w' Hrun; simpl in Hrun.
  - injection Hrun as <-. split; [done|]. exists []. rewrite app_nil_r.
    repeat split; done.
  - unfold mbind, M_bind in Hrun. rewrite verify_granule_eq in Hrun.
    destruct (bit_at (this w) from) eqn:Hbit.
    + destruct (load_u1 os (granule_ptr m from)) as [v|] eqn:Hload; [|done].
      apply IH in Hrun as (Hthis & tr & Htr & Hvis & Hpr & Hx & Hloads).
      simpl in *. split; [done|].
      exists ([EvAt from; EvLoad (granule_ptr m from) v] ++ tr).
      rewrite Htr, <- app_assoc. repeat split; simpl; try done.
      * by rewrite <- Hvis.
      * intros j [<-|Hj] Hj1.
        -- exists v. split; [done|]. right. by left.
        -- destruct (Hloads j Hj Hj1) as (v' & ? & ?).
           exists v'. split; [done|]. right. by right.
    + apply IH in Hrun as (Hthis & tr & Htr & Hvis & Hpr & Hx & Hloads).
      simpl in *. split; [done|].
      exists ([EvAt from] ++ tr).
      rewrite Htr, <- app_assoc. repeat split; simpl; try done.
      * by rewrite <- Hvis.
      * intros j [<-|Hj] Hj1; [congruence|].
        destruct (Hloads j Hj Hj1) as (v' & ? & ?).
        exists v'. split; [done|]. by right.
Qed.

(** The loop completes when every committed granule can be loaded from. *)
Lemma for_idx_verify_granule_returns os slow m n : forall from w,
  (forall j, In j (idx_seq from n) -> bit_at (this w) j = true ->
     is_Some (load_u1 os (granule_ptr m j))) ->
  exists w', for_idx n from (verify_granule os slow m) w = Ok (tt, w').
Proof.
  induction n as [|n IH]; intros from w Hmapped; simpl.
  - by eexists.
  - unfold mbind, M_bind. rewrite verify_granule_eq.
    destruct (bit_at (this w) from) eqn:Hbit.
    + destruct (Hmapped from) as [v ->]; [by left|done|].
      apply IH. intros j Hj. simpl. apply Hmapped. by right.
    + apply IH. intros j Hj. simpl. apply Hmapped. by right.
Qed.

(** [verify] returns when both alignment assertions hold and, under
    [do_touch_test], every committed granule can be loaded from. *)
Lemma verify_returns os slow touch w :
  is_aligned (_base (this w))
    (wrap (_words_per_bit (this w) * BytesPerWord)) = true ->
  is_aligned (_word_size (this w)) (_words_per_bit (this w)) = true ->
  (touch = true -> forall j, j < size (this w) -> bit_at (this w) j = true ->
     is_Some (load_u1 os (granule_ptr (this w) j))) ->
  exists w', verify os slow touch w = Ok (tt, w').
Proof.
  intros Hbase Hsize Hmapped. rewrite verify_eq, Hbase, Hsize.
  destruct touch; [|by eexists].
  apply for_idx_verify_granule_returns. intros j Hj.
  apply Hmapped; [done|]. apply In_idx_seq in Hj. lia.
Qed.

(** What a completed [verify] has done. *)
Lemma verify_post os slow touch w w' :
  verify os slow touch w = Ok (tt, w') ->
  this w' = this w /\
  exists tr,
    trace w' = trace w ++ tr /\
    visited tr =
      (if touch then idx_seq 0 (N.to_nat (size (this w))) else []) /\
    probed tr = [] /\
    x w' = foldl xor_u1 (x w) (loaded tr) /\
    (touch = true -> forall j, j < size (this w) ->
       bit_at (this w) j = true ->
       exists v, load_u1 os (granule_ptr (this w) j) = Some v /\
                 In (EvLoad (granule_ptr (this w) j) v) tr).
Proof.
  rewrite verify_eq.
  destruct (is_aligned (_base (this w)) _); [|done].
  destruct (is_aligned (_word_size (this w)) _); [|done].
  destruct touch.
  - intros Hrun.
    apply for_idx_verify_granule in Hrun
      as (Hthis & tr & Htr & Hvis & Hpr & Hx & Hloads).
    split; [done|]. exists tr. repeat split; try done.
    intros _ j Hj. apply Hloads, In_idx_seq. lia.
  - intros [= <-]. split; [done|]. exists []. rewrite app_nil_r.
    repeat split; done.
Qed.

(** A misaligned base is reported by [verify], whatever the flags. *)
Lemma verify_rejects_misaligned_base os slow touch w :
  is_aligned (_base (this w))
    (wrap (_words_per_bit (this w) * BytesPerWord)) = false ->
  verify os slow touch w = Abort (AssertFailed "is not aligned").
Proof. intros H. by rewrite verify_eq, H. Qed.

(** A mask as constructed, over a region that ends inside the address
    space, satisfies [in_address_space], and marking ranges keeps it so. *)
Lemma CommitMask_new_in_address_space b st start R m :
  CommitMask_new b st start R = Ok m ->
  start + R * BytesPerWord <= 2 ^ 64 ->
  in_address_space m.
Proof.
  unfold CommitMask_new, mask_size.
  destruct (N.eqb_spec (commit_granule_words st) 0) as [|HG]; [done|].
  simpl. destruct (assert b _ _); [|done]. intros [= <-] Htop.
  unfold in_address_space, size; simpl.
  rewrite size_CHeapBitMap_new. repeat split; [lia| |done].
  rewrite N.mul_comm. apply N.Div0.mul_div_le.
Qed.

Lemma run_op_in_address_space m o :
  in_address_space m -> in_address_space (run_op m o).
Proof.
  unfold in_address_space.
  destruct o; simpl; [rewrite size_mark_committed|rewrite size_mark_uncommitted];
    done.
Qed.

(** The [slow] flag changes nothing: its assertion tests the address of
    a function, and the probe it would enable is switched off. *)
Lemma verify_slow_irrelevant os touch w :
  verify os true touch w = verify os false touch w.
Proof.
  rewrite !verify_eq.
  destruct (is_aligned (_base (this w)) _); [|done].
  destruct (is_aligned (_word_size (this w)) _); [|done].
  destruct touch; [|done].
  apply for_idx_ext. intros i w0. by rewrite !verify_granule_eq.
Qed.

(** ** Claims about the verifier *)

(** C4 as stated does not hold: with [slow] requested, the probe
    available and the granule of a clear bit readable, [verify] returns
    instead of aborting, with or without [do_touch_test]. *)
Lemma verify_accepts_readable_uncommitted :
  bit_at mask8 0 = false /\
  CanUseSafeFetch32 (os_mapped true) = true /\
  is_readable_pointer (os_mapped true) (granule_ptr mask8 0) = true /\
  ~ is_fatal (verify (os_mapped true) true true (world_of mask8)) /\
  ~ is_fatal (verify (os_mapped true) true false (world_of mask8)).
Proof.
  repeat split; try reflexivity;
    intros [f Hf]; vm_compute in Hf; discriminate.
Qed.

(** C4, amended. The check of a clear bit's granule sits behind
    [do_touch_test], [slow], [CanUseSafeFetch32()] and the compile-time
    constant [TEST_UNCOMMITTED_REGION], which is false.  So for every
    mask, platform and pair of flags, [verify] never calls the probe, and
    its outcome does not depend on what the probe would answer: it does
    not abort when the granule of a clear bit is accessible. *)
Theorem verify_never_probes os slow touch w :
  (forall f, verify (with_probe os f) slow touch w = verify os slow touch w) /\
  (forall w', verify os slow touch w = Ok (tt, w') ->
     probed (trace w') = probed (trace w)).
Proof.
  split.
  - intros f. rewrite !verify_eq.
    destruct (is_aligned (_base (this w)) _); [|done].
    destruct (is_aligned (_word_size (this w)) _); [|done].
    destruct touch; [|done].
    apply for_idx_ext. intros i w0. by rewrite !verify_granule_eq.
  - intros w' Hrun.
    apply verify_post in Hrun as (_ & tr & -> & _ & Hpr & _).
    unfold probed in *. by rewrite omap_app, Hpr, app_nil_r.
Qed.

(** C5 as stated does not hold: without [do_touch_test], [verify] returns
    without having looked at any of the eight bits. *)
Lemma verify_without_touch_test_visits_no_bit :
  size mask8 = 8 /\
  exists w', verify (os_mapped true) false false (world_of mask8) = Ok (tt, w') /\
    forall i, i < size mask8 ->
      count_occ N.eq_dec (visited (trace w')) i <> 1%nat.
Proof.
  split; [reflexivity|]. eexists. split; [reflexivity|].
  intros i _. simpl. discriminate.
Qed.

(** C5, amended. For every mask and every [slow], a call of [verify] that
    returns has looked at every bit exactly once, in index order, when
    [do_touch_test] is requested, and has looked at no bit when it is
    not. *)
Theorem verify_visits_under_touch_test os slow touch w w' :
  verify os slow touch w = Ok (tt, w') ->
  exists tr,
    trace w' = trace w ++ tr /\
    visited tr =
      (if touch then idx_seq 0 (N.to_nat (size (this w))) else []) /\
    (forall i, i < size (this w) ->
       count_occ N.eq_dec (visited tr) i = if touch then 1%nat else 0%nat).
Proof.
  intros Hrun. apply verify_post in Hrun as (_ & tr & Htr & Hvis & _).
  exists tr. split; [done|]. split; [done|].
  intros i Hi. rewrite Hvis. destruct touch; [|done].
  apply NoDup_count_occ'; [apply NoDup_idx_seq|].
  apply In_idx_seq. lia.
Qed.

Lemma verify_visits_under_touch_test_witness :
  verify (os_mapped true) true true (world_of mask8_2_5) =
    Ok (tt, world_touched) /\
  exists tr,
    trace world_touched = trace (world_of mask8_2_5) ++ tr /\
    visited tr =
      (if true
       then idx_seq 0 (N.to_nat (size (this (world_of mask8_2_5))))
       else []) /\
    (forall i, i < size (this (world_of mask8_2_5)) ->
       count_occ N.eq_dec (visited tr) i = if true then 1%nat else 0%nat).
Proof.
  assert (Hrun : verify (os_mapped true) true true (world_of mask8_2_5) =
                 Ok (tt, world_touched)) by (vm_compute; reflexivity).
  split; [exact Hrun|].
  exact (verify_visits_under_touch_test (os_mapped true) true true
           (world_of mask8_2_5) world_touched Hrun).
Defined.

(** C6. For every mask and every index [i] whose bit is true, a call of
    [verify] with [do_touch_test] requested loads one byte from the first
    address of granule [i], which is [base + i * granule size] (the
    granule size in bytes, for a region inside the address space), and
    folds the byte into the global [x] by exclusive or: [x] ends up as
    its old value xor-ed with every byte loaded, in order. *)
Theorem verify_touches_committed os slow w w' i :
  verify os slow true w = Ok (tt, w') ->
  in_address_space (this w) ->
  i < size (this w) ->
  bit_at (this w) i = true ->
  exists v tr,
    load_u1 os (_base (this w) +
                i * (_words_per_bit (this w) * BytesPerWord)) = Some v /\
    trace w' = trace w ++ tr /\
    In (EvLoad (_base (this w) +
                i * (_words_per_bit (this w) * BytesPerWord)) v) tr /\
    In v (loaded tr) /\
    x w' = foldl xor_u1 (x w) (loaded tr).
Proof.
  intros Hrun Hwf Hi Hbit.
  apply verify_post in Hrun as (_ & tr & Htr & _ & _ & Hx & Hloads).
  destruct (Hloads eq_refl i Hi Hbit) as (v & Hload & Hin).
  rewrite granule_ptr_no_wrap in Hload, Hin by done.
  exists v, tr. repeat split; try done.
  unfold loaded. apply list_elem_of_In, list_elem_of_omap.
  eexists. split; [by apply list_elem_of_In|done].
Qed.

Lemma verify_touches_committed_witness :
  verify (os_mapped true) true true (world_of mask8_2_5) =
    Ok (tt, world_touched) /\
  in_address_space (this (world_of mask8_2_5)) /\
  3 < size (this (world_of mask8_2_5)) /\
  bit_at (this (world_of mask8_2_5)) 3 = true /\
  exists v tr,
    load_u1 (os_mapped true)
      (_base (this (world_of mask8_2_5)) +
       3 * (_words_per_bit (this (world_of mask8_2_5)) * BytesPerWord)) =
      Some v /\
    trace world_touched = trace (world_of mask8_2_5) ++ tr /\
    In (EvLoad (_base (this (world_of mask8_2_5)) +
                3 * (_words_per_bit (this (world_of mask8_2_5)) *
                     BytesPerWord)) v) tr /\
    In v (loaded tr) /\
    x world_touched = foldl xor_u1 (x (world_of mask8_2_5)) (loaded tr).
Proof.
  assert (Hrun : verify (os_mapped true) true true (world_of mask8_2_5) =
                 Ok (tt, world_touched)) by (vm_compute; reflexivity).
  assert (Hwf : in_address_space (this (world_of mask8_2_5)))
    by (unfold in_address_space; vm_compute; intuition discriminate).
  assert (Hi : 3 < size (this (world_of mask8_2_5))) by reflexivity.
  assert (Hbit : bit_at (this (world_of mask8_2_5)) 3 = true) by reflexivity.
  split; [exact Hrun|]. split; [exact Hwf|].
  split; [exact Hi|]. split; [exact Hbit|].
  exact (verify_touches_committed (os_mapped true) true
           (world_of mask8_2_5) world_touched 3 Hrun Hwf Hi Hbit).
Defined.

(** C7. For every mask state and every pair of flags, a call of [verify]
    that returns leaves the mask object as it was: bit vector, base and
    both sizes. *)
Theorem verify_preserves_mask os slow touch w w' :
  verify os slow touch w = Ok (tt, w') ->
  this w' = this w /\
  _bits (this w') = _bits (this w) /\
  _base (this w') = _base (this w) /\
  _word_size (this w') = _word_size (this w) /\
  _words_per_bit (this w') = _words_per_bit (this w).
Proof.
  intros Hrun. apply verify_post in Hrun as (-> & _). done.
Qed.

Lemma verify_preserves_mask_witness :
  verify (os_mapped true) true true (world_of mask8_2_5) =
    Ok (tt, world_touched) /\
  this world_touched = this (world_of mask8_2_5) /\
  _bits (this world_touched) = _bits (this (world_of mask8_2_5)) /\
  _base (this world_touched) = _base (this (world_of mask8_2_5)) /\
  _word_size (this world_touched) =
    _word_size (this (world_of mask8_2_5)) /\
  _words_per_bit (this world_touched) =
    _words_per_bit (this (world_of mask8_2_5)).
Proof.
  assert (Hrun : verify (os_mapped true) true true (world_of mask8_2_5) =
                 Ok (tt, world_touched)) by (vm_compute; reflexivity).
  split; [exact Hrun|].
  exact (verify_preserves_mask (os_mapped true) true true
           (world_of mask8_2_5) world_touched Hrun).
Defined.

(** C10. The claim reads the assertion under [slow] as a requirement that
    SafeFetch be available.  On a platform where [CanUseSafeFetch32()]
    answers false, [verify] with [slow] requested nevertheless returns,
    with and without [do_touch_test]: the assertion tests the function's
    address and passes.  On every platform and state a call with [slow]
    behaves as the same call without it. *)
Theorem verify_slow_without_SafeFetch_returns :
  CanUseSafeFetch32 (os_mapped false) = false /\
  verify (os_mapped false) true false (world_of mask8) =
    Ok (tt, world_of mask8) /\
  ~ is_fatal (verify (os_mapped false) true true (world_of mask8)) /\
  (forall os touch w, verify os true touch w = verify os false touch w).
Proof.
  split; [reflexivity|]. split; [reflexivity|]. split.
  - intros [f Hf]. vm_compute in Hf. discriminate.
  - apply verify_slow_irrelevant.
Qed.

(** ** Printing *)

Lemma string_app_assoc (s t u : string) :
  ((s ++ t) ++ u = s ++ (t ++ u))%string.
Proof. induction s as [|c s IH]; simpl; [done|]. by rewrite IH. Qed.

Lemma print_bits_eq m n : forall from st,
  print_bits m n from st = (st ++ bits_text m n from)%string.
Proof.
  induction n as [|n IH]; intros from st; simpl.
  - induction st as [|c st IHst]; simpl; [done|]. by rewrite <- IHst.
  - rewrite IH. unfold st_print. by rewrite string_app_assoc.
Qed.

Lemma length_bits_text m n : forall from,
  String.length (bits_text m n from) = n.
Proof. induction n as [|n IH]; intros from; simpl; [done|]. by rewrite IH. Qed.

Lemma get_bits_text m n : forall from k,
  (k < n)%nat ->
  String.get k (bits_text m n from) =
    Some (granule_char (bit_at m (from + N.of_nat k))).
Proof.
  induction n as [|n IH]; intros from k Hk; [lia|].
  destruct k as [|k]; simpl.
  - by rewrite N.add_0_r.
  - rewrite IH by lia. do 3 f_equal. lia.
Qed.

Lemma print_on_eq PTR_FORMAT m st :
  print_on PTR_FORMAT m st =
    (st ++ "commit mask, base " ++ PTR_FORMAT (_base m) ++ ":" ++
     bits_text m (N.to_nat (size m)) 0 ++ newline)%string.
Proof.
  unfold print_on, st_cr, st_print. rewrite print_bits_eq.
  by rewrite !string_app_assoc.
Qed.

(** C8. For every mask, [print_on] writes the label
    ["commit mask, base <address>:"], then exactly [size()] characters, one
    per bit in index order, ['X'] at position [i] if bit [i] is true and
    ['-'] if it is false, then a line terminator. *)
Theorem print_on_renders_bits PTR_FORMAT m st :
  exists body,
    print_on PTR_FORMAT m st =
      (st ++ "commit mask, base " ++ PTR_FORMAT (_base m) ++ ":" ++
       body ++ newline)%string /\
    String.length body = N.to_nat (size m) /\
    (forall i, i < size m ->
       String.get (N.to_nat i) body =
         Some (if bit_at m i then "X"%char else "-"%char)).
Proof.
  exists (bits_text m (N.to_nat (size m)) 0).
  split; [apply print_on_eq|]. split; [apply length_bits_text|].
  intros i Hi. rewrite get_bits_text by lia.
  rewrite N.add_0_l, N2Nat.id. done.
Qed.

(** C3 as stated does not hold: what [print_on] writes for the example
    is not exactly the quoted text, since the line terminator follows. *)
Lemma print_on_example_not_bare_text :
  print_on PTR_FORMAT_hex (mark_committed mask8 2 5) EmptyString <>
    "commit mask, base 0x1000:--XXX---"%string.
Proof. vm_compute. discriminate. Qed.

(** C3, amended. For base [0x1000], 64 words and granules of 8 words the
    constructed mask has length 8; after [mark_committed([2,5))] bits 1
    and 5 are clear and bits 2 and 4 are set, and [print_on] writes
    ["commit mask, base "], the base under [PTR_FORMAT], [":--XXX---"] and
    a line terminator, which for a [PTR_FORMAT] that prints [0x1000] is
    the quoted text followed by the line terminator. *)
Theorem end_to_end_example :
  CommitMask_new Debug granule8 0x1000 64 = Ok mask8 /\
  size mask8 = 8 /\
  is_committed (mark_committed mask8 2 5) 1 = false /\
  is_committed (mark_committed mask8 2 5) 2 = true /\
  is_committed (mark_committed mask8 2 5) 4 = true /\
  is_committed (mark_committed mask8 2 5) 5 = false /\
  (forall PTR_FORMAT,
     print_on PTR_FORMAT (mark_committed mask8 2 5) EmptyString =
       ("commit mask, base " ++ PTR_FORMAT 0x1000 ++ ":--XXX---" ++
        newline)%string) /\
  print_on PTR_FORMAT_hex (mark_committed mask8 2 5) EmptyString =
    ("commit mask, base 0x1000:--XXX---" ++ newline)%string.
Proof.
  repeat split; try reflexivity.
  intros PTR_FORMAT. by rewrite print_on_eq.
Qed.

(** * Further properties of the verifier *)

Lemma loaded_app tr1 tr2 : loaded (tr1 ++ tr2) = loaded tr1 ++ loaded tr2.
Proof. apply omap_app. Qed.

Lemma load_addrs_app tr1 tr2 :
  load_addrs (tr1 ++ tr2) = load_addrs tr1 ++ load_addrs tr2.
Proof. apply omap_app. Qed.

(** The state a completed loop ends in, in closed form. *)
Lemma for_idx_verify_granule_exact os slow m n : forall from w w',
  this w = m ->
  for_idx n from (verify_granule os slow m) w = Ok (tt, w') ->
  w' = {| this := m;
          x := foldl xor_u1 (x w)
                 (loaded (touch_events os m (idx_seq from n)));
          trace := trace w ++ touch_events os m (idx_seq from n) |}.
Proof.
  induction n as [|n IH]; intros from w w' Hthis Hrun; simpl in Hrun.
  - injection Hrun as <-. destruct w; simpl in *. subst.
    by rewrite app_nil_r.
  - unfold mbind, M_bind in Hrun. rewrite verify_granule_eq, Hthis in Hrun.
    destruct (bit_at m from) eqn:Hbit.
    + destruct (load_u1 os (granule_ptr m from)) as [v|] eqn:Hload; [|done].
      apply IH in Hrun; [|done]. subst w'. simpl.
      rewrite Hbit, Hload. simpl. by rewrite <- app_assoc.
    + apply IH in Hrun; [|done]. subst w'. simpl.
      rewrite Hbit. simpl. by rewrite <- app_assoc.
Qed.

(** Where an aborted loop stopped: at the first set bit whose granule
    cannot be loaded from. *)
Lemma for_idx_verify_granule_abort os slow m n : forall from w f,
  for_idx n from (verify_granule os slow m) w = Abort f ->
  exists i, In i (idx_seq from n) /\
    bit_at (this w) i = true /\
    load_u1 os (granule_ptr m i) = None /\
    f = SegFault (granule_ptr m i) /\
    (forall j, from <= j < i -> bit_at (this w) j = true ->
       is_Some (load_u1 os (granule_ptr m j))).
Proof.
  induction n as [|n IH]; intros from w f Hrun; simpl in Hrun; [done|].
  unfold mbind, M_bind in Hrun. rewrite verify_granule_eq in Hrun.
  destruct (bit_at (this w) from) eqn:Hbit.
  - destruct (load_u1 os (granule_ptr m from)) as [v|] eqn:Hload.
    + apply IH in Hrun as (i & Hi & Hbi & Hli & -> & Hbefore). simpl in *.
      exists i. repeat split; try done; [by right|].
      intros j Hj Hbj. destruct (N.eq_dec j from) as [->|Hne].
      * by rewrite Hload.
      * apply Hbefore; [lia|done].
    + injection Hrun as <-. exists from. repeat split; try done; [by left|].
      intros j Hj. lia.
  - apply IH in Hrun as (i & Hi & Hbi & Hli & -> & Hbefore). simpl in *.
    exists i. repeat split; try done; [by right|].
    intros j Hj Hbj. destruct (N.eq_dec j from) as [->|Hne]; [congruence|].
    apply Hbefore; [lia|done].
Qed.

(** What holds whenever [verify] has returned. *)
Lemma verify_Ok_inv os slow touch w w' :
  verify os slow touch w = Ok (tt, w') ->
  is_aligned (_base (this w))
    (wrap (_words_per_bit (this w) * BytesPerWord)) = true /\
  is_aligned (_word_size (this w)) (_words_per_bit (this w)) = true /\
  (touch = true -> forall j, j < size (this w) -> bit_at (this w) j = true ->
     is_Some (load_u1 os (granule_ptr (this w) j))).
Proof.
  intros Hrun. pose proof Hrun as Hpost.
  apply verify_post in Hpost as (_ & tr & _ & _ & _ & _ & Hloads).
  rewrite verify_eq in Hrun.
  destruct (is_aligned (_base (this w)) _); [|done].
  destruct (is_aligned (_word_size (this w)) _); [|done].
  repeat split. intros Ht j Hj Hbit.
  destruct (Hloads Ht j Hj Hbit) as (v & -> & _). by eexists.
Qed.

(** X1. [verify] returns exactly when both alignment assertions hold and,
    under [do_touch_test], the first byte of every committed granule can be
    loaded. *)
Theorem verify_returns_iff os slow touch w :
  (exists w', verify os slow touch w = Ok (tt, w')) <->
  is_aligned (_base (this w))
    (wrap (_words_per_bit (this w) * BytesPerWord)) = true /\
  is_aligned (_word_size (this w)) (_words_per_bit (this w)) = true /\
  (touch = true -> forall j, j < size (this w) -> bit_at (this w) j = true ->
     is_Some (load_u1 os (granule_ptr (this w) j))).
Proof.
  split.
  - intros [w' Hrun]. exact (verify_Ok_inv _ _ _ _ _ Hrun).
  - intros (Hbase & Hsize & Hmapped). by apply verify_returns.
Qed.

(** X2. When [verify] ends the process it does so in one of two ways: an
    alignment assertion has failed, or, under [do_touch_test], the load
    from the lowest committed granule that cannot be loaded from has
    faulted.  No other assertion of [verify] ever fails. *)
Theorem verify_abort_cases os slow touch w f :
  verify os slow touch w = Abort f ->
  (f = AssertFailed "is not aligned" /\
   (is_aligned (_base (this w))
      (wrap (_words_per_bit (this w) * BytesPerWord)) = false \/
    is_aligned (_word_size (this w)) (_words_per_bit (this w)) = false)) \/
  (touch = true /\
   exists i, i < size (this w) /\
     bit_at (this w) i = true /\
     load_u1 os (granule_ptr (this w) i) = None /\
     f = SegFault (granule_ptr (this w) i) /\
     (forall j, j < i -> bit_at (this w) j = true ->
        is_Some (load_u1 os (granule_ptr (this w) j)))).
Proof.
  rewrite verify_eq.
  destruct (is_aligned (_base (this w)) _) eqn:Hbase;
    [|intros [= <-]; left; split; [done|by left]].
  destruct (is_aligned (_word_size (this w)) _) eqn:Hsize;
    [|intros [= <-]; left; split; [done|by right]].
  destruct touch; [|done]. intros Hrun. right. split; [done|].
  apply for_idx_verify_granule_abort in Hrun
    as (i & Hi & Hbit & Hload & -> & Hbefore).
  exists i. apply In_idx_seq in Hi. repeat split; try done; [lia|].
  intros j Hj. apply Hbefore. lia.
Qed.

Lemma verify_abort_cases_witness :
  verify (os_hole 4288) false true (world_of mask8_2_5) =
    Abort (SegFault 4288) /\
  ((SegFault 4288 = AssertFailed "is not aligned" /\
    (is_aligned (_base (this (world_of mask8_2_5)))
       (wrap (_words_per_bit (this (world_of mask8_2_5)) * BytesPerWord)) =
       false \/
     is_aligned (_word_size (this (world_of mask8_2_5)))
       (_words_per_bit (this (world_of mask8_2_5))) = false)) \/
   (true = true /\
    exists i, i < size (this (world_of mask8_2_5)) /\
      bit_at (this (world_of mask8_2_5)) i = true /\
      load_u1 (os_hole 4288) (granule_ptr (this (world_of mask8_2_5)) i) =
        None /\
      SegFault 4288 = SegFault (granule_ptr (this (world_of mask8_2_5)) i) /\
      (forall j, j < i -> bit_at (this (world_of mask8_2_5)) j = true ->
         is_Some (load_u1 (os_hole 4288)
                    (granule_ptr (this (world_of mask8_2_5)) j))))).
Proof.
  assert (Hrun : verify (os_hole 4288) false true (world_of mask8_2_5) =
                 Abort (SegFault 4288)) by (vm_compute; reflexivity).
  split; [exact Hrun|].
  exact (verify_abort_cases (os_hole 4288) false true
           (world_of mask8_2_5) (SegFault 4288) Hrun).
Defined.

Lemma touch_events_all_clear os m idxs :
  (forall i, In i idxs -> bit_at m i = false) ->
  loaded (touch_events os m idxs) = [] /\
  load_addrs (touch_events os m idxs) = [].
Proof.
  induction idxs as [|i idxs IH]; intros Hclear; simpl; [done|].
  rewrite (Hclear i) by (by left). simpl.
  apply IH. intros j Hj. apply Hclear. by right.
Qed.

Lemma load_addrs_touch_events os m idxs :
  (forall i, In i idxs -> bit_at m i = true ->
     is_Some (load_u1 os (granule_ptr m i))) ->
  load_addrs (touch_events os m idxs) =
    map (granule_ptr m) (List.filter (bit_at m) idxs).
Proof.
  induction idxs as [|i idxs IH]; intros Hmapped; simpl; [done|].
  assert (IH' : load_addrs (touch_events os m idxs) =
                map (granule_ptr m) (List.filter (bit_at m) idxs))
    by (apply IH; intros j Hj; apply Hmapped; by right).
  destruct (bit_at m i) eqn:Hbit; simpl.
  - destruct (Hmapped i) as [v Hv]; [by left|done|].
    rewrite Hv. change (load_addrs ([EvLoad (granule_ptr m i) v] ++
                                    touch_events os m idxs) =
                        granule_ptr m i :: map (granule_ptr m)
                                             (List.filter (bit_at m) idxs)).
    rewrite load_addrs_app, IH'. done.
  - done.
Qed.

(** X3. Over a mask with no committed bit [verify] never loads from memory:
    once the alignment assertions hold it returns whatever is mapped, with
    or without [do_touch_test], and leaves [x] and the mask as they were. *)
Theorem verify_all_clear_touches_nothing os slow touch w :
  (forall i, i < size (this w) -> bit_at (this w) i = false) ->
  is_aligned (_base (this w))
    (wrap (_words_per_bit (this w) * BytesPerWord)) = true ->
  is_aligned (_word_size (this w)) (_words_per_bit (this w)) = true ->
  exists w' tr,
    verify os slow touch w = Ok (tt, w') /\
    trace w' = trace w ++ tr /\
    loaded tr = [] /\
    x w' = x w /\
    this w' = this w.
Proof.
  intros Hclear Hbase Hsize.
  destruct (verify_returns os slow touch w Hbase Hsize) as [w' Hrun].
  { intros _ j Hj Hbit. rewrite Hclear in Hbit by done. done. }
  exists w'. pose proof Hrun as Hex.
  rewrite verify_eq, Hbase, Hsize in Hex. destruct touch.
  - apply for_idx_verify_granule_exact in Hex; [|done].
    exists (touch_events os (this w) (idx_seq 0 (N.to_nat (size (this w))))).
    destruct (touch_events_all_clear os (this w)
                (idx_seq 0 (N.to_nat (size (this w))))) as [Hl _].
    { intros i Hi. apply Hclear. apply In_idx_seq in Hi. lia. }
    split; [exact Hrun|]. subst w'. simpl. by rewrite Hl.
  - injection Hex as <-. exists []. rewrite app_nil_r. done.
Qed.

Lemma verify_all_clear_touches_nothing_witness :
  (forall i, i < size (this (world_of mask8)) ->
     bit_at (this (world_of mask8)) i = false) /\
  is_aligned (_base (this (world_of mask8)))
    (wrap (_words_per_bit (this (world_of mask8)) * BytesPerWord)) = true /\
  is_aligned (_word_size (this (world_of mask8)))
    (_words_per_bit (this (world_of mask8))) = true /\
  exists w' tr,
    verify os_unmapped true true (world_of mask8) = Ok (tt, w') /\
    trace w' = trace (world_of mask8) ++ tr /\
    loaded tr = [] /\
    x w' = x (world_of mask8) /\
    this w' = this (world_of mask8).
Proof.
  assert (Hclear : forall i, i < size (this (world_of mask8)) ->
                     bit_at (this (world_of mask8)) i = false).
  { intros i _. unfold bit_at.
    destruct (_bits (this (world_of mask8)) !! N.to_nat i) as [y|] eqn:E;
      [|done].
    change (_bits (this (world_of mask8))) with (replicate 8 false) in E.
    by apply lookup_replicate in E as [-> _]. }
  assert (Hbase : is_aligned (_base (this (world_of mask8)))
            (wrap (_words_per_bit (this (world_of mask8)) * BytesPerWord)) =
            true) by reflexivity.
  assert (Hsize : is_aligned (_word_size (this (world_of mask8)))
            (_words_per_bit (this (world_of mask8))) = true) by reflexivity.
  split; [exact Hclear|]. split; [exact Hbase|]. split; [exact Hsize|].
  exact (verify_all_clear_touches_nothing os_unmapped true true
           (world_of mask8) Hclear Hbase Hsize).
Defined.

(** X5. Under [do_touch_test] a call of [verify] that returns has loaded
    from the first address of each committed granule exactly once, in index
    order, and from no other address. *)
Theorem verify_loads_exactly_committed os slow w w' :
  verify os slow true w = Ok (tt, w') ->
  exists tr,
    trace w' = trace w ++ tr /\
    load_addrs tr =
      map (granule_ptr (this w))
          (List.filter (bit_at (this w))
             (idx_seq 0 (N.to_nat (size (this w))))).
Proof.
  intros Hrun.
  destruct (verify_Ok_inv _ _ _ _ _ Hrun) as (Hbase & Hsize & Hmapped).
  rewrite verify_eq, Hbase, Hsize in Hrun.
  apply for_idx_verify_granule_exact in Hrun; [|done]. subst w'. simpl.
  eexists. split; [done|].
  apply load_addrs_touch_events. intros i Hi.
  apply Hmapped; [done|]. apply In_idx_seq in Hi. lia.
Qed.

Lemma verify_loads_exactly_committed_witness :
  verify (os_mapped true) true true (world_of mask8_2_5) =
    Ok (tt, world_touched) /\
  exists tr,
    trace world_touched = trace (world_of mask8_2_5) ++ tr /\
    load_addrs tr =
      map (granule_ptr (this (world_of mask8_2_5)))
          (List.filter (bit_at (this (world_of mask8_2_5)))
             (idx_seq 0 (N.to_nat (size (this (world_of mask8_2_5)))))).
Proof.
  assert (Hrun : verify (os_mapped true) true true (world_of mask8_2_5) =
                 Ok (tt, world_touched)) by (vm_compute; reflexivity).
  split; [exact Hrun|].
  exact (verify_loads_exactly_committed (os_mapped true) true
           (world_of mask8_2_5) world_touched Hrun).
Defined.

(** X4. For a mask whose region lies inside the address space, the pointer
    [verify] computes for bit [i] is the start of a granule-sized range
    inside [[base, base + word_size * BytesPerWord)], and the ranges of two
    different bits do not overlap: the pointer arithmetic neither wraps
    around nor leaves the region. *)
Theorem granule_ptr_in_region m i :
  in_address_space m -> i < size m ->
  _base m <= granule_ptr m i /\
  granule_ptr m i + _words_per_bit m * BytesPerWord <=
    _base m + _word_size m * BytesPerWord /\
  (forall j, j < size m -> i < j ->
     granule_ptr m i + _words_per_bit m * BytesPerWord <= granule_ptr m j).
Proof.
  intros Hwf Hi. rewrite granule_ptr_no_wrap by done.
  pose proof Hwf as (HG & Hcover & Htop). unfold BytesPerWord in HG, Hcover, Htop |- *.
  split; [lia|]. split; [nia|].
  intros j Hj Hij. rewrite granule_ptr_no_wrap by done.
  unfold BytesPerWord. nia.
Qed.

Lemma granule_ptr_in_region_witness :
  in_address_space mask8_2_5 /\ 3 < size mask8_2_5 /\
  _base mask8_2_5 <= granule_ptr mask8_2_5 3 /\
  granule_ptr mask8_2_5 3 + _words_per_bit mask8_2_5 * BytesPerWord <=
    _base mask8_2_5 + _word_size mask8_2_5 * BytesPerWord /\
  (forall j, j < size mask8_2_5 -> 3 < j ->
     granule_ptr mask8_2_5 3 + _words_per_bit mask8_2_5 * BytesPerWord <=
       granule_ptr mask8_2_5 j).
Proof.
  assert (Hwf : in_address_space mask8_2_5)
    by (unfold in_address_space; vm_compute; intuition discriminate).
  assert (Hi : 3 < size mask8_2_5) by reflexivity.
  split; [exact Hwf|]. split; [exact Hi|].
  exact (granule_ptr_in_region mask8_2_5 3 Hwf Hi).
Defined.

(** X6. Without [do_touch_test], [verify] is the two alignment assertions and
    nothing else: its outcome is the same on every platform and for every
    [slow], it never loads from memory, and when it returns the state is
    the one it started in. *)
Theorem verify_without_touch_test_is_pure os os' slow slow' w :
  verify os slow false w = verify os' slow' false w /\
  (forall w', verify os slow false w = Ok (tt, w') -> w' = w) /\
  (forall f, verify os slow false w = Abort f ->
     f = AssertFailed "is not aligned").
Proof.
  rewrite !verify_eq.
  destruct (is_aligned (_base (this w)) _);
    [|repeat split; [done|by intros f [= <-]]].
  destruct (is_aligned (_word_size (this w)) _);
    [|repeat split; [done|by intros f [= <-]]].
  repeat split; [by intros w' [= <-]|done].
Qed.

Lemma granule_ptr_bounds m i :
  in_address_space m -> i < size m ->
  _base m <= granule_ptr m i /\
  granule_ptr m i + _words_per_bit m * BytesPerWord <=
    _base m + _word_size m * BytesPerWord.
Proof.
  intros Hwf Hi. rewrite granule_ptr_no_wrap by done.
  destruct Hwf as (HG & Hcover & Htop). unfold BytesPerWord in *.
  split; [lia|nia].
Qed.

Lemma In_load_addrs_touch_events os m idxs p :
  In p (load_addrs (touch_events os m idxs)) ->
  exists i, In i idxs /\ bit_at m i = true /\ p = granule_ptr m i.
Proof.
  induction idxs as [|i idxs IH]; simpl; [done|].
  destruct (bit_at m i) eqn:Hbit; simpl.
  - destruct (load_u1 os (granule_ptr m i)) as [v|]; simpl.
    + intros [<-|Hin].
      * exists i. split; [by left|done].
      * destruct (IH Hin) as (j & ? & ? & ?). exists j. split; [by right|done].
    + intros Hin. destruct (IH Hin) as (j & ? & ? & ?).
      exists j. split; [by right|done].
  - intros Hin. destruct (IH Hin) as (j & ? & ? & ?).
    exists j. split; [by right|done].
Qed.

(** X7. [verify] never reaches outside the region.  For a mask whose region
    lies inside the address space, every address a returning call has
    loaded from, and the address at which an aborted call has faulted, is
    the start of a granule-sized range inside
    [[base, base + word_size * BytesPerWord)]. *)
Theorem verify_stays_inside_region os slow touch w :
  in_address_space (this w) ->
  (forall w', verify os slow touch w = Ok (tt, w') ->
     exists tr, trace w' = trace w ++ tr /\
       forall p, In p (load_addrs tr) ->
         _base (this w) <= p /\
         p + _words_per_bit (this w) * BytesPerWord <=
           _base (this w) + _word_size (this w) * BytesPerWord) /\
  (forall p, verify os slow touch w = Abort (SegFault p) ->
     _base (this w) <= p /\
     p + _words_per_bit (this w) * BytesPerWord <=
       _base (this w) + _word_size (this w) * BytesPerWord).
Proof.
  intros Hwf. rewrite verify_eq.
  destruct (is_aligned (_base (this w)) _); [|done].
  destruct (is_aligned (_word_size (this w)) _); [|done].
  destruct touch.
  - split.
    + intros w' Hrun.
      apply for_idx_verify_granule_exact in Hrun; [|done]. subst w'. simpl.
      eexists. split; [done|]. intros p Hp.
      apply In_load_addrs_touch_events in Hp as (i & Hi & _ & ->).
      apply granule_ptr_bounds; [done|]. apply In_idx_seq in Hi. lia.
    + intros p Hrun.
      apply for_idx_verify_granule_abort in Hrun as (i & Hi & _ & _ & Hf & _).
      injection Hf as ->.
      apply granule_ptr_bounds; [done|]. apply In_idx_seq in Hi. lia.
  - split; [|done]. intros w' [= <-]. exists []. rewrite app_nil_r.
    split; [done|]. intros p [].
Qed.

Lemma verify_stays_inside_region_witness :
  in_address_space (this (world_of mask8_2_5)) /\
  verify (os_hole 4288) false true (world_of mask8_2_5) =
    Abort (SegFault 4288) /\
  (forall w', verify (os_hole 4288) false true (world_of mask8_2_5) =
              Ok (tt, w') ->
     exists tr, trace w' = trace (world_of mask8_2_5) ++ tr /\
       forall p, In p (load_addrs tr) ->
         _base (this (world_of mask8_2_5)) <= p /\
         p + _words_per_bit (this (world_of mask8_2_5)) * BytesPerWord <=
           _base (this (world_of mask8_2_5)) +
           _word_size (this (world_of mask8_2_5)) * BytesPerWord) /\
  (forall p, verify (os_hole 4288) false true (world_of mask8_2_5) =
             Abort (SegFault p) ->
     _base (this (world_of mask8_2_5)) <= p /\
     p + _words_per_bit (this (world_of mask8_2_5)) * BytesPerWord <=
       _base (this (world_of mask8_2_5)) +
       _word_size (this (world_of mask8_2_5)) * BytesPerWord).
Proof.
  assert (Hwf : in_address_space (this (world_of mask8_2_5)))
    by (unfold in_address_space; vm_compute; intuition discriminate).
  assert (Hrun : verify (os_hole 4288) false true (world_of mask8_2_5) =
                 Abort (SegFault 4288)) by (vm_compute; reflexivity).
  split; [exact Hwf|]. split; [exact Hrun|].
  exact (verify_stays_inside_region (os_hole 4288) false true
           (world_of mask8_2_5) Hwf).
Defined.

(** ** The sink [x] *)

Lemma xor_u1_testbit a v k :
  N.testbit (xor_u1 a v) k =
  if k <? 8 then xorb (N.testbit a k) (N.testbit v k) else false.
Proof.
  unfold xor_u1. destruct (N.ltb_spec k 8).
  - rewrite N.mod_pow2_bits_low by done. apply N.lxor_spec.
  - by rewrite N.mod_pow2_bits_high.
Qed.

Lemma u1_testbit_high a k : a < 2 ^ 8 -> 8 <= k -> N.testbit a k = false.
Proof.
  intros Ha Hk. rewrite <- (N.mod_small a (2 ^ 8)) by done.
  by apply N.mod_pow2_bits_high.
Qed.

Lemma xor_u1_lt a v : xor_u1 a v < 2 ^ 8.
Proof. unfold xor_u1. by apply N.mod_lt. Qed.

Lemma xor_u1_swap a u v : xor_u1 (xor_u1 a u) v = xor_u1 (xor_u1 a v) u.
Proof.
  apply N.bits_inj. intros k. rewrite !xor_u1_testbit.
  destruct (k <? 8); [|done].
  by destruct (N.testbit a k), (N.testbit u k), (N.testbit v k).
Qed.

Lemma xor_u1_cancel a v : a < 2 ^ 8 -> xor_u1 (xor_u1 a v) v = a.
Proof.
  intros Ha. apply N.bits_inj. intros k. rewrite !xor_u1_testbit.
  destruct (N.ltb_spec k 8).
  - by destruct (N.testbit a k), (N.testbit v k).
  - by rewrite u1_testbit_high.
Qed.

Lemma foldl_xor_u1_push l : forall a v,
  xor_u1 (foldl xor_u1 a l) v = foldl xor_u1 (xor_u1 a v) l.
Proof.
  induction l as [|u l IH]; intros a v; simpl; [done|].
  by rewrite IH, xor_u1_swap.
Qed.

Lemma foldl_xor_u1_twice l : forall a,
  a < 2 ^ 8 -> foldl xor_u1 (foldl xor_u1 a l) l = a.
Proof.
  induction l as [|v l IH]; intros a Ha; simpl; [done|].
  rewrite foldl_xor_u1_push, xor_u1_cancel by done. by apply IH.
Qed.

(** X8. A touch test can be repeated: if [verify] with [do_touch_test] has
    returned, a second call on the state it left returns as well, and,
    [x] being a [u1], puts [x] back to the value it had before the first
    call. *)
Theorem verify_twice_restores_x os slow slow' w w1 :
  verify os slow true w = Ok (tt, w1) ->
  x w < 2 ^ 8 ->
  exists w2,
    verify os slow' true w1 = Ok (tt, w2) /\
    x w2 = x w /\
    this w2 = this w.
Proof.
  intros Hrun Hx.
  destruct (verify_Ok_inv _ _ _ _ _ Hrun) as (Hbase & Hsize & Hmapped).
  rewrite verify_eq, Hbase, Hsize in Hrun.
  apply for_idx_verify_granule_exact in Hrun; [|done].
  assert (Hthis : this w1 = this w) by by subst w1.
  destruct (verify_returns os slow' true w1) as [w2 Hrun2].
  { by rewrite Hthis. } { by rewrite Hthis. }
  { rewrite Hthis. done. }
  exists w2. split; [done|].
  rewrite verify_eq, Hthis, Hbase, Hsize in Hrun2.
  apply for_idx_verify_granule_exact in Hrun2; [|done].
  subst w2. simpl. split; [|done].
  subst w1. simpl. by apply foldl_xor_u1_twice.
Qed.

Lemma verify_twice_restores_x_witness :
  verify (os_mapped true) true true (world_of mask8_2_5) =
    Ok (tt, world_touched) /\
  x (world_of mask8_2_5) < 2 ^ 8 /\
  exists w2,
    verify (os_mapped true) false true world_touched = Ok (tt, w2) /\
    x w2 = x (world_of mask8_2_5) /\
    this w2 = this (world_of mask8_2_5).
Proof.
  assert (Hrun : verify (os_mapped true) true true (world_of mask8_2_5) =
                 Ok (tt, world_touched)) by (vm_compute; reflexivity).
  assert (Hx : x (world_of mask8_2_5) < 2 ^ 8) by reflexivity.
  split; [exact Hrun|]. split; [exact Hx|].
  exact (verify_twice_restores_x (os_mapped true) true false
           (world_of mask8_2_5) world_touched Hrun Hx).
Defined.

(** * Further properties of construction *)

(** What a mask that came out of a debug build's constructor carries. *)
Lemma CommitMask_new_Debug_inv st start R m :
  CommitMask_new Debug st start R = Ok m ->
  _base m = start /\ _word_size m = R /\
  _words_per_bit m = commit_granule_words st /\
  is_aligned R (commit_granule_words st) = true.
Proof.
  unfold CommitMask_new, mask_size.
  destruct (N.eqb_spec (commit_granule_words st) 0) as [|HG]; [done|].
  simpl. destruct (0 <? R); [|done].
  destruct (0 <? commit_granule_words st); [|done].
  destruct (is_aligned R (commit_granule_words st)); [|done].
  simpl. by intros [= <-].
Qed.

(** X9. In a product build the constructor checks nothing: for every nonzero
    granule size it returns a mask of [R / G] bits over [start], also for a
    region size that is zero or no multiple of the granule size; and
    whenever the debug build's constructor returns, it returns that same
    mask. *)
Theorem CommitMask_new_product_unchecked st start R :
  commit_granule_words st <> 0 ->
  exists m,
    CommitMask_new Product st start R = Ok m /\
    size m = R / commit_granule_words st /\
    _base m = start /\ _word_size m = R /\
    _words_per_bit m = commit_granule_words st /\
    (forall m', CommitMask_new Debug st start R = Ok m' -> m' = m).
Proof.
  intros HG. unfold CommitMask_new, mask_size.
  destruct (N.eqb_spec (commit_granule_words st) 0) as [|_]; [done|].
  simpl. eexists. split; [done|]. split; [apply size_CHeapBitMap_new|].
  repeat split.
  intros m'. destruct (_ && _); simpl; [|done]. by intros [= <-].
Qed.

Lemma CommitMask_new_product_unchecked_witness :
  commit_granule_words granule7 <> 0 /\
  exists m,
    CommitMask_new Product granule7 0x1001 100 = Ok m /\
    size m = 100 / commit_granule_words granule7 /\
    _base m = 0x1001 /\ _word_size m = 100 /\
    _words_per_bit m = commit_granule_words granule7 /\
    (forall m', CommitMask_new Debug granule7 0x1001 100 = Ok m' -> m' = m).
Proof.
  assert (HG : commit_granule_words granule7 <> 0) by discriminate.
  split; [exact HG|].
  exact (CommitMask_new_product_unchecked granule7 0x1001 100 HG).
Defined.

(** X10. Over a mask that a debug build has constructed, the only assertion of
    [verify] that can still fail is the one on the base: without
    [do_touch_test], [verify] returns exactly when the base given to the
    constructor is aligned to the granule size in bytes, and then without
    any effect. *)
Theorem verify_after_Debug_new os slow st start R m w :
  CommitMask_new Debug st start R = Ok m ->
  this w = m ->
  (verify os slow false w = Ok (tt, w) <->
   is_aligned start (wrap (commit_granule_words st * BytesPerWord)) = true) /\
  (verify os slow false w = Abort (AssertFailed "is not aligned") <->
   is_aligned start (wrap (commit_granule_words st * BytesPerWord)) = false).
Proof.
  intros Hnew Hthis.
  apply CommitMask_new_Debug_inv in Hnew as (Hb & Hw & Hg & Hal).
  rewrite verify_eq, Hthis, Hb, Hw, Hg, Hal.
  destruct (is_aligned start _); split; split; done.
Qed.

Lemma verify_after_Debug_new_witness :
  CommitMask_new Debug granule8 0x1001 64 =
    Ok {| _bits := replicate 8 false; _base := 0x1001;
          _word_size := 64; _words_per_bit := 8 |} /\
  (let w := world_of {| _bits := replicate 8 false; _base := 0x1001;
                        _word_size := 64; _words_per_bit := 8 |} in
   (verify os_unmapped true false w = Ok (tt, w) <->
    is_aligned 0x1001 (wrap (commit_granule_words granule8 * BytesPerWord)) =
      true) /\
   (verify os_unmapped true false w = Abort (AssertFailed "is not aligned") <->
    is_aligned 0x1001 (wrap (commit_granule_words granule8 * BytesPerWord)) =
      false)).
Proof.
  assert (Hnew : CommitMask_new Debug granule8 0x1001 64 =
            Ok {| _bits := replicate 8 false; _base := 0x1001;
                  _word_size := 64; _words_per_bit := 8 |}) by reflexivity.
  split; [exact Hnew|].
  exact (verify_after_Debug_new os_unmapped true granule8 0x1001 64 _
           (world_of {| _bits := replicate 8 false; _base := 0x1001;
                        _word_size := 64; _words_per_bit := 8 |})
           Hnew eq_refl).
Defined.

(** * Further properties of printing *)

Lemma string_app_inv_head (s a b : string) :
  (s ++ a = s ++ b)%string -> a = b.
Proof. induction s as [|c s IH]; simpl; [done|]. intros [= H]. by apply IH. Qed.

Lemma granule_char_inj b1 b2 : granule_char b1 = granule_char b2 -> b1 = b2.
Proof. by destruct b1, b2. Qed.

Lemma bits_text_newline_inj m1 m2 n1 : forall n2 f1 f2,
  (bits_text m1 n1 f1 ++ newline = bits_text m2 n2 f2 ++ newline)%string ->
  n1 = n2 /\
  forall k, (k < n1)%nat ->
    bit_at m1 (f1 + N.of_nat k) = bit_at m2 (f2 + N.of_nat k).
Proof.
  induction n1 as [|n1 IH]; intros [|n2] f1 f2; simpl.
  - intros _. split; [done|]. intros k Hk. lia.
  - unfold newline. intros [= H _]. by destruct (bit_at m2 f2).
  - unfold newline. intros [= H _]. by destruct (bit_at m1 f1).
  - intros [= Hc Hrest]. apply granule_char_inj in Hc.
    apply IH in Hrest as [-> Hbits]. split; [done|].
    intros [|k] Hk.
    + by rewrite !N.add_0_r.
    + specialize (Hbits k ltac:(lia)).
      replace (f1 + N.of_nat (S k)) with (N.succ f1 + N.of_nat k) by lia.
      replace (f2 + N.of_nat (S k)) with (N.succ f2 + N.of_nat k) by lia.
      done.
Qed.

(** X11. The rendering loses nothing: two masks over the same base that
    [print_on] renders alike have the same bit vector, in length and bit
    for bit. *)
Theorem print_on_faithful PTR_FORMAT m1 m2 st :
  _base m1 = _base m2 ->
  print_on PTR_FORMAT m1 st = print_on PTR_FORMAT m2 st ->
  _bits m1 = _bits m2.
Proof.
  intros Hbase. rewrite !print_on_eq, Hbase. intros H.
  do 4 apply string_app_inv_head in H.
  apply bits_text_newline_inj in H as [Hlen Hbits].
  unfold size in Hlen, Hbits. rewrite !Nat2N.id in Hlen, Hbits.
  apply list_eq. intros k.
  destruct (decide (k < length (_bits m1))%nat) as [Hk|Hk].
  - specialize (Hbits k Hk). unfold bit_at in Hbits.
    rewrite !N.add_0_l, !Nat2N.id in Hbits.
    destruct (lookup_lt_is_Some_2 (_bits m1) k Hk) as [y1 E1].
    destruct (lookup_lt_is_Some_2 (_bits m2) k) as [y2 E2]; [lia|].
    rewrite E1, E2 in Hbits |- *. simpl in Hbits. by subst.
  - rewrite !lookup_ge_None_2 by lia. done.
Qed.

Lemma print_on_faithful_witness :
  _base mask8_2_5 = _base (mark_committed (mark_committed mask8 2 3) 3 5) /\
  print_on PTR_FORMAT_hex mask8_2_5 EmptyString =
    print_on PTR_FORMAT_hex (mark_committed (mark_committed mask8 2 3) 3 5)
      EmptyString /\
  _bits mask8_2_5 = _bits (mark_committed (mark_committed mask8 2 3) 3 5).
Proof.
  assert (Hbase : _base mask8_2_5 =
                  _base (mark_committed (mark_committed mask8 2 3) 3 5))
    by reflexivity.
  assert (Hout : print_on PTR_FORMAT_hex mask8_2_5 EmptyString =
            print_on PTR_FORMAT_hex
              (mark_committed (mark_committed mask8 2 3) 3 5) EmptyString)
    by (vm_compute; reflexivity).
  split; [exact Hbase|]. split; [exact Hout|].
  exact (print_on_faithful PTR_FORMAT_hex mask8_2_5
           (mark_committed (mark_committed mask8 2 3) 3 5) EmptyString
           Hbase Hout).
Defined.
